(** * The authority façade of go-ocf/step-ca (authority/authority.go)

    The package wraps the certificate-authority engine of
    github.com/smallstep/certificates.  Every exported method forwards to the
    engine; [New] classifies its options, builds the engine and loads the
    intermediate identity; [Sign] chooses between two issuance paths.

    The embedding is shallow.  Calls that leave the package (the engine, the
    identity loader, the configuration loader, the OCF signing entry point)
    are answered by an environment and recorded, in order, in a call log, so
    that "what was called, with which arguments" is a value one can compute
    and reason about. *)

From Stdlib Require Import String List ZArith Bool Arith Lia.
Import ListNotations.
Open Scope string_scope.
Open Scope list_scope.

Set Implicit Arguments.

(** ** Types of the imported packages

    The façade never looks inside these values; it stores them and passes
    them on.  A pointer type of an imported package ([*x509.Certificate],
    [*stepAuthority.Authority], ...) is one opaque type whose values include
    the nil pointer, because the façade neither dereferences nor compares
    them. *)

Class Imports : Type := {
  error_value : Type;                  (* what a non-nil [error] holds *)
  context_Context : Type;              (* context.Context *)
  x509_Certificate : Type;             (* *x509.Certificate *)
  x509_CertificateRequest : Type;      (* *x509.CertificateRequest *)
  tls_Certificate : Type;              (* *tls.Certificate *)
  tlsutil_TLSOptions : Type;           (* *tlsutil.TLSOptions *)
  ssh_PublicKey : Type;                (* ssh.PublicKey *)
  ssh_Certificate : Type;              (* *ssh.Certificate *)
  stepAuthority_Config : Type;         (* *stepAuthority.Config *)
  stepAuthority_Authority : Type;      (* *stepAuthority.Authority *)
  stepAuthority_Option : Type;         (* stepAuthority.Option *)
  stepAuthority_RevokeOptions : Type;  (* *authority.RevokeOptions *)
  stepProvisioner_Interface : Type;    (* stepProvisioner.Interface *)
  stepProvisioner_List : Type;         (* stepProvisioner.List *)
  stepProvisioner_Options : Type;      (* stepProvisioner.Options *)
  stepProvisioner_SSHOptions : Type;   (* stepProvisioner.SSHOptions *)
  stepProvisioner_value : Type;        (* a value of one of the engine's sign-option types *)
  db_AuthDB : Type;                    (* db.AuthDB *)
  x509util_Identity : Type;            (* *x509util.Identity *)
  pemutil_Options : Type;              (* pemutil.Options *)
  other_value : Type                   (* a value of any other dynamic type, nil included *)
}.

(** A pointer the façade itself dereferences: nil is [None]. *)
Definition ptr (A : Type) : Type := option A.

(** How a function of the package ends: it returns, or it panics (here: a
    nil pointer is dereferenced). *)
Inductive Outcome (A : Type) : Type :=
| Returned (a : A)
| Panicked.
Arguments Panicked {A}.

Section Facade.

Context {I : Imports}.

(** Go's [error]: nil is [None]. *)
Definition error : Type := option error_value.

(** [stepProvisioner.SignOption] is the empty interface: it holds a value of
    any type.  The one dynamic type the façade itself can put there is a
    slice of sign options (see [SignSSH]); every other value is opaque. *)
#[warnings="-register-all"]
Inductive SignOption : Type :=
| SignOptionValue (v : stepProvisioner_value)
| SignOptionSlice (s : list SignOption).

(** Modelled from the spec: the declaration of [Config] is not in
    authority.go.  The spec's data model gives it the embedded base
    configuration of the engine, the paths of the intermediate certificate
    and key, and an optional password; authority.go reads exactly these four
    fields ([config.Config], [config.IntermediateCert],
    [config.IntermediateKey], [config.Password]). *)
Record Config : Type := {
  Config_ : stepAuthority_Config;      (* the embedded field [Config] *)
  IntermediateCert : string;
  IntermediateKey : string;
  Password : string
}.

(** [type Authority struct] *)
Record Authority : Type := {
  config : ptr Config;
  stepAuth : stepAuthority_Authority;
  intermediateIdentity : x509util_Identity
}.

(** [type WrapperOption func(a)], with [a] a pointer to an [Authority]: what
    the function does to the façade it is given. *)
Definition WrapperOption : Type := Authority -> Authority.

(** [type Option interface{}]: a value together with its dynamic type.  The
    type switch of [New] tells three cases apart. *)
Inductive Option : Type :=
| OfWrapperOption (v : WrapperOption)
| OfStepOption (v : stepAuthority_Option)
| OfOtherType (v : other_value).

(** ** Calls that leave the package

    One constructor per function or method called outside authority.go, with
    the arguments as the callee receives them.  The engine's methods have the
    signatures of the interface this façade mirrors; a variadic parameter is
    the list of the arguments bound to it. *)
Inductive Call : Type :=
| stepAuthority_New (config : stepAuthority_Config) (opts : list stepAuthority_Option)
| stepAuthority_LoadConfiguration (filename : string)
| x509util_LoadIdentityFromDisk (crtPath keyPath : string) (pemOpts : list pemutil_Options)
| stepAuth_GetDatabase (e : stepAuthority_Authority)
| stepAuth_Shutdown (e : stepAuthority_Authority)
| stepAuth_Authorize (e : stepAuthority_Authority) (ctx : context_Context) (ott : string)
| stepAuth_AuthorizeSign (e : stepAuthority_Authority) (ott : string)
| stepAuth_GetTLSOptions (e : stepAuthority_Authority)
| stepAuth_Root (e : stepAuthority_Authority) (shasum : string)
| stepAuth_Sign (e : stepAuthority_Authority) (cr : x509_CertificateRequest)
    (opts : stepProvisioner_Options) (signOpts : list SignOption)
| Authority_OCFSign (a : ptr Authority) (cr : x509_CertificateRequest)
    (opts : stepProvisioner_Options) (signOpts : list SignOption)
| stepAuth_Renew (e : stepAuthority_Authority) (peer : x509_Certificate)
| stepAuth_LoadProvisionerByCertificate (e : stepAuthority_Authority) (c : x509_Certificate)
| stepAuth_LoadProvisionerByID (e : stepAuthority_Authority) (ID : string)
| stepAuth_GetProvisioners (e : stepAuthority_Authority) (cursor : string) (limit : Z)
| stepAuth_Revoke (e : stepAuthority_Authority) (opts : stepAuthority_RevokeOptions)
| stepAuth_GetEncryptedKey (e : stepAuthority_Authority) (kid : string)
| stepAuth_GetRoots (e : stepAuthority_Authority)
| stepAuth_GetFederation (e : stepAuthority_Authority)
| stepAuth_GetTLSCertificate (e : stepAuthority_Authority)
| stepAuth_SignSSH (e : stepAuthority_Authority) (key : ssh_PublicKey)
    (opts : stepProvisioner_SSHOptions) (signOpts : list SignOption)
| stepAuth_GetRootCertificates (e : stepAuthority_Authority)
| stepAuth_SignSSHAddUser (e : stepAuthority_Authority) (key : ssh_PublicKey)
    (subject : ssh_Certificate).

(** What each call returns: Go's result list as a tuple. *)
Definition Result (c : Call) : Type :=
  match c with
  | stepAuthority_New _ _ => stepAuthority_Authority * error
  | stepAuthority_LoadConfiguration _ => stepAuthority_Config * error
  | x509util_LoadIdentityFromDisk _ _ _ => x509util_Identity * error
  | stepAuth_GetDatabase _ => db_AuthDB
  | stepAuth_Shutdown _ => error
  | stepAuth_Authorize _ _ _ => list SignOption * error
  | stepAuth_AuthorizeSign _ _ => list SignOption * error
  | stepAuth_GetTLSOptions _ => tlsutil_TLSOptions
  | stepAuth_Root _ _ => x509_Certificate * error
  | stepAuth_Sign _ _ _ _ => x509_Certificate * x509_Certificate * error
  | Authority_OCFSign _ _ _ _ => x509_Certificate * x509_Certificate * error
  | stepAuth_Renew _ _ => x509_Certificate * x509_Certificate * error
  | stepAuth_LoadProvisionerByCertificate _ _ => stepProvisioner_Interface * error
  | stepAuth_LoadProvisionerByID _ _ => stepProvisioner_Interface * error
  | stepAuth_GetProvisioners _ _ _ => stepProvisioner_List * string * error
  | stepAuth_Revoke _ _ => error
  | stepAuth_GetEncryptedKey _ _ => string * error
  | stepAuth_GetRoots _ => list x509_Certificate * error
  | stepAuth_GetFederation _ => list x509_Certificate * error
  | stepAuth_GetTLSCertificate _ => tls_Certificate * error
  | stepAuth_SignSSH _ _ _ _ => ssh_Certificate * error
  | stepAuth_GetRootCertificates _ => list x509_Certificate
  | stepAuth_SignSSHAddUser _ _ _ => ssh_Certificate * error
  end.

(** The environment: the state the outside world keeps (files, database,
    the engine's own fields), how it answers each call, and the two pure
    option constructors of the imported packages that authority.go uses. *)
Class Environment : Type := {
  World : Type;
  respond : forall c : Call, World -> Result c * World;
  stepAuthority_WithDatabase : db_AuthDB -> stepAuthority_Option;
  pemutil_WithPassword : list Byte.byte -> pemutil_Options;
  (* the test that [isOCF], declared in another file, applies to one sign option *)
  isOCFMarker : SignOption -> bool
}.

Context {E : Environment}.

(** ** The monad of the façade: world passing, a call log, and panics *)

Definition M (A : Type) : Type := World -> Outcome A * World * list Call.

Definition ret {A} (a : A) : M A := fun w => (Returned a, w, []).

Definition bind {A B} (m : M A) (f : A -> M B) : M B :=
  fun w =>
    match m w with
    | (Returned a, w1, log1) =>
        match f a w1 with
        | (r, w2, log2) => (r, w2, log1 ++ log2)
        end
    | (Panicked, w1, log1) => (Panicked, w1, log1)
    end.

(** A call to the outside: ask the environment, log the call. *)
Definition call (c : Call) : M (Result c) :=
  fun w => match respond c w with (r, w1) => (Returned r, w1, [c]) end.

(** Reading a field through a pointer: a nil pointer panics. *)
Definition deref {A} (p : ptr A) : M A :=
  fun w => match p with
           | Some a => (Returned a, w, [])
           | None => (Panicked, w, [])
           end.

Notation "x <- m ;; k" := (bind m (fun x => k))
  (at level 100, m at next level, right associativity).

Definition outcome {A} (r : Outcome A * World * list Call) : Outcome A := fst (fst r).
Definition world_after {A} (r : Outcome A * World * list Call) : World := snd (fst r).
Definition calls {A} (r : Outcome A * World * list Call) : list Call := snd r.

(** ** Construction *)

(** [func WithDatabase(db db.AuthDB) stepAuthority.Option] *)
Definition WithDatabase (db : db_AuthDB) : stepAuthority_Option :=
  stepAuthority_WithDatabase db.

(** The loop of [New] (lines 42-51): [stepOpts] and [wrapOpts] start nil and
    grow by [append]; a value of neither type matches no case. *)
Fixpoint classify (opts : list Option)
    (stepOpts : list stepAuthority_Option) (wrapOpts : list WrapperOption)
    : list stepAuthority_Option * list WrapperOption :=
  match opts with
  | [] => (stepOpts, wrapOpts)
  | o :: rest =>
      match o with
      | OfWrapperOption v => classify rest stepOpts (wrapOpts ++ [v])
      | OfStepOption v => classify rest (stepOpts ++ [v]) wrapOpts
      | OfOtherType _ => classify rest stepOpts wrapOpts
      end
  end.

(** [func New(config *Config, opts ...Option)], returning a pointer to an
    [Authority] and an [error]. *)
Definition New (config : ptr Config) (opts : list Option) : M (ptr Authority * error) :=
  let '(stepOpts, wrapOpts) := classify opts [] [] in
  c <- deref config ;;
  r <- call (stepAuthority_New (Config_ c) stepOpts) ;;
  let '(stepAuth, err) := r in
  match err with
  | Some e => ret (None, Some e)
  | None =>
      if (0 <? String.length (Password c))%nat
      then
        r' <- call (x509util_LoadIdentityFromDisk (IntermediateCert c) (IntermediateKey c)
                      [pemutil_WithPassword (list_byte_of_string (Password c))]) ;;
        let '(intermediateIdentity, err) := r' in
        match err with
        | Some e => ret (None, Some e)
        | None =>
            ret (Some {| config := config;
                         stepAuth := stepAuth;
                         intermediateIdentity := intermediateIdentity |}, None)
        end
      else
        r' <- call (x509util_LoadIdentityFromDisk (IntermediateCert c) (IntermediateKey c) []) ;;
        let '(intermediateIdentity, err) := r' in
        match err with
        | Some e => ret (None, Some e)
        | None =>
            ret (Some {| config := config;
                         stepAuth := stepAuth;
                         intermediateIdentity := intermediateIdentity |}, None)
        end
  end.

(** [func LoadConfiguration(filename string)], returning a pointer to a
    [Config] and an [error].  The composite literal sets the embedded field
    only; the other fields have their zero value. *)
Definition LoadConfiguration (filename : string) : M (ptr Config * error) :=
  r <- call (stepAuthority_LoadConfiguration filename) ;;
  let '(config, err) := r in
  match err with
  | Some e => ret (None, Some e)
  | None =>
      ret (Some {| Config_ := config;
                   IntermediateCert := "";
                   IntermediateKey := "";
                   Password := "" |}, None)
  end.

(** ** Methods

    A method reads [a.stepAuth] through its receiver, so a nil receiver
    panics before anything is called. *)

Definition GetDatabase (a : ptr Authority) : M db_AuthDB :=
  a' <- deref a ;; call (stepAuth_GetDatabase (stepAuth a')).

Definition Shutdown (a : ptr Authority) : M error :=
  a' <- deref a ;; call (stepAuth_Shutdown (stepAuth a')).

Definition Authorize (a : ptr Authority) (ctx : context_Context) (ott : string)
    : M (list SignOption * error) :=
  a' <- deref a ;; call (stepAuth_Authorize (stepAuth a') ctx ott).

Definition AuthorizeSign (a : ptr Authority) (ott : string) : M (list SignOption * error) :=
  a' <- deref a ;; call (stepAuth_AuthorizeSign (stepAuth a') ott).

Definition GetTLSOptions (a : ptr Authority) : M tlsutil_TLSOptions :=
  a' <- deref a ;; call (stepAuth_GetTLSOptions (stepAuth a')).

Definition Root (a : ptr Authority) (shasum : string) : M (x509_Certificate * error) :=
  a' <- deref a ;; call (stepAuth_Root (stepAuth a') shasum).

(** Modelled from the spec: the method [isOCF] is declared in another file
    of the package.  The spec: "examine the sign-option sequence for a marker
    option that indicates alternate-issuance-flow applicability; return true
    iff at least one element matches."  Which option is the marker is left
    to the environment ([isOCFMarker]). *)
Definition isOCF (a : ptr Authority) (signOpts : list SignOption) : bool :=
  existsb isOCFMarker signOpts.

(** Modelled from the spec: the method [OCFSign] is declared in another file
    of the package; the spec treats it as an external capability: "given a
    certificate request, base options, and sign options, produce a signed
    leaf certificate and the issuer certificate, or fail with a signing
    error".  It is a call answered by the environment. *)
Definition OCFSign (a : ptr Authority) (cr : x509_CertificateRequest)
    (opts : stepProvisioner_Options) (signOpts : list SignOption)
    : M (x509_Certificate * x509_Certificate * error) :=
  call (Authority_OCFSign a cr opts signOpts).

(** [func (a *Authority) Sign(cr, opts, signOpts ...)]: both branches spread
    the slice ([signOpts...]), so the callee's variadic parameter is the
    caller's list. *)
Definition Sign (a : ptr Authority) (cr : x509_CertificateRequest)
    (opts : stepProvisioner_Options) (signOpts : list SignOption)
    : M (x509_Certificate * x509_Certificate * error) :=
  if isOCF a signOpts
  then OCFSign a cr opts signOpts
  else a' <- deref a ;; call (stepAuth_Sign (stepAuth a') cr opts signOpts).

Definition Renew (a : ptr Authority) (peer : x509_Certificate)
    : M (x509_Certificate * x509_Certificate * error) :=
  a' <- deref a ;; call (stepAuth_Renew (stepAuth a') peer).

Definition LoadProvisionerByCertificate (a : ptr Authority) (c : x509_Certificate)
    : M (stepProvisioner_Interface * error) :=
  a' <- deref a ;; call (stepAuth_LoadProvisionerByCertificate (stepAuth a') c).

Definition LoadProvisionerByID (a : ptr Authority) (ID : string)
    : M (stepProvisioner_Interface * error) :=
  a' <- deref a ;; call (stepAuth_LoadProvisionerByID (stepAuth a') ID).

Definition GetProvisioners (a : ptr Authority) (cursor : string) (limit : Z)
    : M (stepProvisioner_List * string * error) :=
  a' <- deref a ;; call (stepAuth_GetProvisioners (stepAuth a') cursor limit).

Definition Revoke (a : ptr Authority) (opts : stepAuthority_RevokeOptions) : M error :=
  a' <- deref a ;; call (stepAuth_Revoke (stepAuth a') opts).

Definition GetEncryptedKey (a : ptr Authority) (kid : string) : M (string * error) :=
  a' <- deref a ;; call (stepAuth_GetEncryptedKey (stepAuth a') kid).

Definition GetRoots (a : ptr Authority) : M (list x509_Certificate * error) :=
  a' <- deref a ;; call (stepAuth_GetRoots (stepAuth a')).

Definition GetFederation (a : ptr Authority) : M (list x509_Certificate * error) :=
  a' <- deref a ;; call (stepAuth_GetFederation (stepAuth a')).

Definition GetTLSCertificate (a : ptr Authority) : M (tls_Certificate * error) :=
  a' <- deref a ;; call (stepAuth_GetTLSCertificate (stepAuth a')).

(** [func (a *Authority) SignSSH(key, opts, signOpts ...)]: line 155 passes
    [signOpts] without spreading it.  The slice is then one argument of the
    engine's variadic parameter: the engine receives a single sign option,
    whose value is the caller's slice. *)
Definition SignSSH (a : ptr Authority) (key : ssh_PublicKey)
    (opts : stepProvisioner_SSHOptions) (signOpts : list SignOption)
    : M (ssh_Certificate * error) :=
  a' <- deref a ;;
  call (stepAuth_SignSSH (stepAuth a') key opts [SignOptionSlice signOpts]).

Definition GetRootCertificates (a : ptr Authority) : M (list x509_Certificate) :=
  a' <- deref a ;; call (stepAuth_GetRootCertificates (stepAuth a')).

Definition SignSSHAddUser (a : ptr Authority) (key : ssh_PublicKey)
    (subject : ssh_Certificate) : M (ssh_Certificate * error) :=
  a' <- deref a ;; call (stepAuth_SignSSHAddUser (stepAuth a') key subject).

(** ** Vocabulary of the properties *)

(** The dynamic type of an option, as the type switch of [New] sees it. *)
Definition isWrapperOption (o : Option) : bool :=
  match o with OfWrapperOption _ => true | _ => false end.

Definition isStepOption (o : Option) : bool :=
  match o with OfStepOption _ => true | _ => false end.

(** The options of each recognised type, in the order of the list: what the
    spec calls the engine-option and the façade-option partition. *)
Fixpoint engineOptions (opts : list Option) : list stepAuthority_Option :=
  match opts with
  | [] => []
  | OfStepOption v :: rest => v :: engineOptions rest
  | _ :: rest => engineOptions rest
  end.

Fixpoint facadeOptions (opts : list Option) : list WrapperOption :=
  match opts with
  | [] => []
  | OfWrapperOption v :: rest => v :: facadeOptions rest
  | _ :: rest => facadeOptions rest
  end.

(** The two issuance paths of [Sign], read off the first call it makes. *)
Inductive Path : Type := AlternatePath | StandardPath.

Definition issuancePath (log : list Call) : option Path :=
  match log with
  | Authority_OCFSign _ _ _ _ :: _ => Some AlternatePath
  | stepAuth_Sign _ _ _ _ :: _ => Some StandardPath
  | _ => None
  end.

Definition isLoadIdentity (c : Call) : bool :=
  match c with x509util_LoadIdentityFromDisk _ _ _ => true | _ => false end.

(** Number of sign options in a value, nested slices included. *)
Fixpoint size (o : SignOption) : nat :=
  match o with
  | SignOptionValue _ => 1
  | SignOptionSlice s => S (list_sum (map size s))
  end.

(** An option the type switch of [New] matches no case for. *)
Definition isOtherType (o : Option) : bool :=
  match o with OfOtherType _ => true | _ => false end.

Definition isEngineConstructor (c : Call) : bool :=
  match c with stepAuthority_New _ _ => true | _ => false end.

End Facade.

(** ** A small concrete environment

    Used to run the façade on explicit inputs.  Handles are numbers, errors
    are messages, the world is a clock that ticks at every call.  The engine
    refuses base configuration [0]; the identity loader refuses an empty
    certificate path, and a key path that starts with [enc] unless a
    password option is given. *)
Module Toy.

Definition imports : Imports := {|
  error_value := string;
  context_Context := unit;
  x509_Certificate := nat;
  x509_CertificateRequest := nat;
  tls_Certificate := nat;
  tlsutil_TLSOptions := nat;
  ssh_PublicKey := nat;
  ssh_Certificate := nat;
  stepAuthority_Config := nat;
  stepAuthority_Authority := nat;
  stepAuthority_Option := nat;
  stepAuthority_RevokeOptions := nat;
  stepProvisioner_Interface := nat;
  stepProvisioner_List := list nat;
  stepProvisioner_Options := nat;
  stepProvisioner_SSHOptions := nat;
  stepProvisioner_value := nat;
  db_AuthDB := nat;
  x509util_Identity := nat;
  pemutil_Options := list Byte.byte;
  other_value := nat
|}.

Definition answer (c : @Call imports) : nat -> @Result imports c * nat :=
  match c as c0 return nat -> @Result imports c0 * nat with
  | stepAuthority_New config opts => fun w =>
      ((100 + config + length opts,
        if Nat.eqb config 0 then Some "engine: invalid configuration" else None), S w)
  | stepAuthority_LoadConfiguration filename => fun w =>
      ((String.length filename,
        if String.eqb filename "" then Some "config: no such file" else None), S w)
  | x509util_LoadIdentityFromDisk crtPath keyPath pemOpts => fun w =>
      ((String.length crtPath + String.length keyPath,
        if String.eqb crtPath "" then Some "identity: no certificate"
        else if String.prefix "enc" keyPath && Nat.eqb (length pemOpts) 0
             then Some "identity: key is encrypted"
             else None), S w)
  | stepAuth_GetDatabase e => fun w => (e, S w)
  | stepAuth_Shutdown e => fun w =>
      (if Nat.eqb w 0 then None else Some "engine: already used", S w)
  | stepAuth_Authorize e ctx ott => fun w => (([], None), S w)
  | stepAuth_AuthorizeSign e ott => fun w => (([], None), S w)
  | stepAuth_GetTLSOptions e => fun w => (e, S w)
  | stepAuth_Root e shasum => fun w => ((w, None), S w)
  | stepAuth_Sign e cr opts signOpts => fun w =>
      ((cr + w, e, None), S w)
  | Authority_OCFSign a cr opts signOpts => fun w =>
      ((1000 + cr + w, 1000, None), S w)
  | stepAuth_Renew e peer => fun w => ((peer + w, e, None), S w)
  | stepAuth_LoadProvisionerByCertificate e c => fun w => ((c, None), S w)
  | stepAuth_LoadProvisionerByID e ID => fun w => ((String.length ID, None), S w)
  | stepAuth_GetProvisioners e cursor limit => fun w => (([], cursor, None), S w)
  | stepAuth_Revoke e opts => fun w => (None, S w)
  | stepAuth_GetEncryptedKey e kid => fun w => ((kid, None), S w)
  | stepAuth_GetRoots e => fun w => (([e], None), S w)
  | stepAuth_GetFederation e => fun w => (([e], None), S w)
  | stepAuth_GetTLSCertificate e => fun w => ((e, None), S w)
  | stepAuth_SignSSH e key opts signOpts => fun w =>
      ((key + w,
        if existsb (fun o => match o with SignOptionSlice _ => true | _ => false end) signOpts
        then Some "signSSH: invalid extra option type"
        else None), S w)
  | stepAuth_GetRootCertificates e => fun w => ([e], S w)
  | stepAuth_SignSSHAddUser e key subject => fun w => ((key + subject, None), S w)
  end.

Definition environment : @Environment imports := {|
  World := nat;
  respond := answer;
  stepAuthority_WithDatabase := fun db => 500 + db;
  pemutil_WithPassword := fun pw => pw;
  isOCFMarker := fun o => match o with SignOptionValue 7 => true | _ => false end
|}.

(** A configuration with a plaintext key, one with an encrypted key and its
    password, one the engine refuses, and a façade built on engine handle
    [101]. *)
Definition plainConfig : @Config imports :=
  @Build_Config imports 1 "ca.crt" "ca.key" "".

Definition sealedConfig : @Config imports :=
  @Build_Config imports 1 "ca.crt" "enc.key" "s3cret".

Definition refusedConfig : @Config imports :=
  @Build_Config imports 0 "ca.crt" "ca.key" "".

Definition facade : @Authority imports :=
  @Build_Authority imports (Some plainConfig) 101 12.

(** Two façade options that would change a façade if they were applied. *)
Definition dropConfig : @WrapperOption imports :=
  fun a => @Build_Authority imports None (stepAuth a) (intermediateIdentity a).

Definition swapIdentity : @WrapperOption imports :=
  fun a => @Build_Authority imports (config a) (stepAuth a) 0.

(** Options of each dynamic type, and plain sign options. *)
Definition engineOption (n : nat) : @Option imports := @OfStepOption imports n.
Definition facadeOption (f : @WrapperOption imports) : @Option imports := @OfWrapperOption imports f.
Definition strayOption (n : nat) : @Option imports := @OfOtherType imports n.
Definition signOption (n : nat) : @SignOption imports := @SignOptionValue imports n.

(** Running the façade in this environment. *)
Definition New := @New imports environment.
Definition Sign := @Sign imports environment.
Definition SignSSH := @SignSSH imports environment.
Definition LoadConfiguration := @LoadConfiguration imports environment.

Definition Shutdown := @Shutdown imports environment.

(** A façade on the same engine handle as [facade], with no configuration
    and another identity. *)
Definition otherFacade : @Authority imports :=
  @Build_Authority imports None 101 99.

End Toy.

(** * Properties *)

Section FacadeProperties.

Context {I : Imports} {E : Environment}.

(** ** The monad *)

Lemma call_run (c : Call) (w : World) :
  call c w = (Returned (fst (respond c w)), snd (respond c w), [c]).
Proof. unfold call. destruct (respond c w) as [r w1]. reflexivity. Qed.

Lemma calls_call (c : Call) (w : World) : calls (call c w) = [c].
Proof. rewrite call_run. reflexivity. Qed.

Lemma method_run {A} (f : Authority) (k : Authority -> M A) (w : World) :
  bind (deref (Some f)) k w = k f w.
Proof.
  unfold bind, deref. destruct (k f w) as [[r w1] log]. reflexivity.
Qed.

Lemma nil_receiver_panics {A} (k : Authority -> M A) (w : World) :
  bind (deref None) k w = (Panicked, w, []).
Proof. reflexivity. Qed.

(** ** Classification of the options *)

Lemma classify_acc (opts : list Option) :
  forall stepOpts wrapOpts,
    classify opts stepOpts wrapOpts
    = (stepOpts ++ engineOptions opts, wrapOpts ++ facadeOptions opts).
Proof.
  induction opts as [|o rest IH]; intros stepOpts wrapOpts; simpl.
  - now rewrite !app_nil_r.
  - destruct o as [v|v|v]; rewrite IH; simpl.
    + now rewrite <- app_assoc.
    + now rewrite <- app_assoc.
    + reflexivity.
Qed.

Lemma classify_partitions (opts : list Option) :
  classify opts [] [] = (engineOptions opts, facadeOptions opts).
Proof. apply classify_acc. Qed.

Lemma engineOptions_filter (opts : list Option) :
  map OfStepOption (engineOptions opts) = filter isStepOption opts.
Proof.
  induction opts as [|[v|v|v] rest IH]; simpl; congruence.
Qed.

Lemma facadeOptions_filter (opts : list Option) :
  map OfWrapperOption (facadeOptions opts) = filter isWrapperOption opts.
Proof.
  induction opts as [|[v|v|v] rest IH]; simpl; congruence.
Qed.

Lemma engineOptions_app (l1 l2 : list Option) :
  engineOptions (l1 ++ l2) = engineOptions l1 ++ engineOptions l2.
Proof.
  induction l1 as [|[v|v|v] rest IH]; simpl; congruence.
Qed.

Lemma facadeOptions_app (l1 l2 : list Option) :
  facadeOptions (l1 ++ l2) = facadeOptions l1 ++ facadeOptions l2.
Proof.
  induction l1 as [|[v|v|v] rest IH]; simpl; congruence.
Qed.

Lemma engineOptions_without_wrappers (opts : list Option) :
  engineOptions (filter (fun o => negb (isWrapperOption o)) opts) = engineOptions opts.
Proof.
  induction opts as [|[v|v|v] rest IH]; simpl; congruence.
Qed.

(** C1. The loop of [New] sorts the options by dynamic type: boxed again, the
    façade-option partition is the sublist of the [WrapperOption]s of the
    input and the engine-option partition the sublist of its
    [stepAuthority.Option]s, each in the input's order; removing the options
    of any other type from the input changes neither partition. *)
Theorem New_partitions_options (opts : list Option) :
  let '(stepOpts, wrapOpts) := classify opts [] [] in
  map OfWrapperOption wrapOpts = filter isWrapperOption opts
  /\ map OfStepOption stepOpts = filter isStepOption opts
  /\ classify (filter (fun o => isWrapperOption o || isStepOption o) opts) [] []
     = (stepOpts, wrapOpts).
Proof.
  rewrite classify_partitions.
  split; [apply facadeOptions_filter|].
  split; [apply engineOptions_filter|].
  rewrite classify_partitions.
  f_equal; induction opts as [|[v|v|v] rest IH]; simpl; congruence.
Qed.

(** ** Construction *)

Ltac run_New :=
  unfold New; rewrite ?classify_partitions in *; cbv beta iota;
  unfold bind, deref, call; cbn [fst snd] in *.

(** [New(nil, ...)] reads [config.Config] through the nil pointer: it panics
    before anything is called.  The properties of [New] below are about a
    configuration, that is a pointer to one. *)
Lemma New_nil_config_panics (opts : list Option) (w : World) :
  New None opts w = (Panicked, w, []).
Proof. run_New. reflexivity. Qed.

(** C3. If the engine's constructor returns a non-nil error, [New] returns
    that error and a nil façade, and the constructor is the only call [New]
    makes: the identity loader is not called. *)
Theorem New_engine_failure (c : Config) (opts : list Option) (w w1 : World)
    (sa : stepAuthority_Authority) (e : error_value)
    (Hengine : respond (stepAuthority_New (Config_ c) (fst (classify opts [] []))) w
               = ((sa, Some e), w1)) :
  New (Some c) opts w
  = (Returned (None, Some e), w1,
     [stepAuthority_New (Config_ c) (fst (classify opts [] []))])
  /\ existsb isLoadIdentity (calls (New (Some c) opts w)) = false.
Proof.
  assert (Hrun : New (Some c) opts w
                 = (Returned (None, Some e), w1,
                    [stepAuthority_New (Config_ c) (fst (classify opts [] []))])).
  { run_New. rewrite Hengine. reflexivity. }
  split; [exact Hrun|]. rewrite Hrun. reflexivity.
Qed.

(** C4. Once the engine is built, [New] loads the identity from the
    configured certificate and key paths: with the one option
    [pemutil.WithPassword] of the password's bytes when [Password] is not
    empty, with no option when it is empty.  If the loader returns an error,
    [New] returns that error and a nil façade; otherwise it returns the
    façade holding the configuration, the engine and the identity the loader
    returned.  So the identity of a façade that [New] returns is the one a
    successful load returned. *)
Theorem New_loads_identity (c : Config) (opts : list Option) (w w1 : World)
    (sa : stepAuthority_Authority)
    (Hengine : respond (stepAuthority_New (Config_ c) (fst (classify opts [] []))) w
               = ((sa, None), w1)) :
  exists pemOpts : list pemutil_Options,
    (Password c <> "" -> pemOpts = [pemutil_WithPassword (list_byte_of_string (Password c))])
    /\ (Password c = "" -> pemOpts = [])
    /\ let load := x509util_LoadIdentityFromDisk (IntermediateCert c) (IntermediateKey c) pemOpts in
       calls (New (Some c) opts w)
       = [stepAuthority_New (Config_ c) (fst (classify opts [] [])); load]
       /\ world_after (New (Some c) opts w) = snd (respond load w1)
       /\ (forall ident e, fst (respond load w1) = (ident, Some e) ->
             outcome (New (Some c) opts w) = Returned (None, Some e))
       /\ (forall ident, fst (respond load w1) = (ident, None) ->
             outcome (New (Some c) opts w)
             = Returned (Some {| config := Some c;
                                 stepAuth := sa;
                                 intermediateIdentity := ident |}, None))
       /\ (forall a err, outcome (New (Some c) opts w) = Returned (Some a, err) ->
             fst (respond load w1) = (intermediateIdentity a, None)).
Proof.
  exists (if (0 <? String.length (Password c))%nat
          then [pemutil_WithPassword (list_byte_of_string (Password c))]
          else []).
  split; [|split].
  - destruct (Password c); [congruence | reflexivity].
  - intros ->. reflexivity.
  - cbv zeta.
    assert (Hrun : forall pemOpts,
      (if (0 <? String.length (Password c))%nat
       then [pemutil_WithPassword (list_byte_of_string (Password c))]
       else []) = pemOpts ->
      New (Some c) opts w
      = (let load := x509util_LoadIdentityFromDisk (IntermediateCert c) (IntermediateKey c) pemOpts in
         (Returned
            (match snd (fst (respond load w1)) with
             | Some e => (None, Some e)
             | None => (Some {| config := Some c; stepAuth := sa;
                                intermediateIdentity := fst (fst (respond load w1)) |}, None)
             end),
          snd (respond load w1),
          [stepAuthority_New (Config_ c) (fst (classify opts [] [])); load]))).
    { intros pemOpts <-. run_New. rewrite Hengine.
      destruct (0 <? String.length (Password c))%nat;
        match goal with
        | |- context [respond ?l w1] => destruct (respond l w1) as [[ident [e|]] w2]
        end; reflexivity. }
    rewrite (Hrun _ eq_refl). cbv zeta. unfold calls, world_after, outcome. cbn [fst snd].
    split; [reflexivity|]. split; [reflexivity|].
    split; [|split].
    + intros ident e ->. reflexivity.
    + intros ident ->. reflexivity.
    + intros a err.
      match goal with
      | |- context [respond ?l w1] => destruct (respond l w1) as [[ident [e|]] w2]
      end; cbn [fst snd]; intros H; inversion H; reflexivity.
Qed.

Lemma New_reads_engine_options (config : ptr Config) (opts1 opts2 : list Option) (w : World) :
  engineOptions opts1 = engineOptions opts2 ->
  New config opts1 w = New config opts2 w.
Proof.
  intros Heq. unfold New. rewrite !classify_partitions. cbv beta iota.
  rewrite Heq. reflexivity.
Qed.

(** C6. The façade options collected by [New] are never applied: two option
    lists that are equal once their [WrapperOption]s are removed give the same
    run of [New], for the same configuration and world: same result, same
    world afterwards, same calls. *)
Theorem New_ignores_wrapper_options (config : ptr Config) (opts1 opts2 : list Option)
    (Hsame : filter (fun o => negb (isWrapperOption o)) opts1
             = filter (fun o => negb (isWrapperOption o)) opts2) :
  forall w : World, New config opts1 w = New config opts2 w.
Proof.
  intros w. apply New_reads_engine_options.
  rewrite <- (engineOptions_without_wrappers opts1), Hsame.
  apply engineOptions_without_wrappers.
Qed.

(** C7. [WithDatabase] returns a [stepAuthority.Option].  Wherever it stands
    in the options of [New], the loop puts it in the engine-option partition,
    between the engine options before and after it, and not in the
    façade-option partition; the engine's constructor is the first call
    [New] makes and receives that partition. *)
Theorem WithDatabase_is_engine_option (c : Config) (db : db_AuthDB)
    (before after : list Option) (w : World) :
  let opts := before ++ OfStepOption (WithDatabase db) :: after in
  let stepOpts := engineOptions before ++ WithDatabase db :: engineOptions after in
  classify opts [] [] = (stepOpts, facadeOptions before ++ facadeOptions after)
  /\ hd_error (calls (New (Some c) opts w)) = Some (stepAuthority_New (Config_ c) stepOpts).
Proof.
  cbv zeta.
  assert (Hc : classify (before ++ OfStepOption (WithDatabase db) :: after) [] []
               = (engineOptions before ++ WithDatabase db :: engineOptions after,
                  facadeOptions before ++ facadeOptions after)).
  { rewrite classify_partitions, engineOptions_app, facadeOptions_app. reflexivity. }
  split; [exact Hc|].
  unfold New. rewrite Hc. cbv beta iota. unfold bind, deref, call.
  destruct (respond _ w) as [[sa [e|]] w1]; [reflexivity|].
  destruct (0 <? String.length (Password c))%nat;
    match goal with
    | |- context [respond ?l w1] => destruct (respond l w1) as [[ident [e|]] w2]
    end; reflexivity.
Qed.

(** C9. For every configuration, option list and world, [New] returns either
    a non-nil façade with a nil error, or a nil façade with a non-nil
    error. *)
Theorem New_atomic (c : Config) (opts : list Option) (w : World) :
  (exists a, outcome (New (Some c) opts w) = Returned (Some a, None))
  \/ (exists e, outcome (New (Some c) opts w) = Returned (None, Some e)).
Proof.
  run_New.
  destruct (respond _ w) as [[sa [e|]] w1]; [right; exists e; reflexivity|].
  destruct (0 <? String.length (Password c))%nat;
    match goal with
    | |- context [respond ?l w1] => destruct (respond l w1) as [[ident [e|]] w2]
    end;
    solve [right; eexists; reflexivity | left; eexists; reflexivity].
Qed.

(** ** Configuration loading *)

(** C8. [LoadConfiguration] makes one call, the engine's loader with the same
    file name.  If the loader returns a nil error, the result is a
    configuration whose embedded base configuration is the loader's result,
    with a nil error; if it returns an error, the result is nil and that
    error. *)
Theorem LoadConfiguration_delegates (filename : string) (w w1 : World)
    (base : stepAuthority_Config) (err : error)
    (Hloader : respond (stepAuthority_LoadConfiguration filename) w = ((base, err), w1)) :
  calls (LoadConfiguration filename w) = [stepAuthority_LoadConfiguration filename]
  /\ world_after (LoadConfiguration filename w) = w1
  /\ (err = None ->
        exists cfg, outcome (LoadConfiguration filename w) = Returned (Some cfg, None)
                    /\ Config_ cfg = base)
  /\ (forall e, err = Some e ->
        outcome (LoadConfiguration filename w) = Returned (None, Some e)).
Proof.
  unfold LoadConfiguration, bind, call. rewrite Hloader.
  destruct err as [e|]; cbn.
  - repeat split; [discriminate | intros e' [= <-]; reflexivity].
  - repeat split; [|discriminate]. intros _. eexists. split; reflexivity.
Qed.

(** ** Signing dispatch *)

(** C2. On a façade, [Sign] runs the OCF entry point, on the same receiver,
    request, options and sign options, exactly when [isOCF] holds of the sign
    options; and it runs the engine's [Sign], on the same request, options
    and sign options, exactly when [isOCF] does not hold.  In both cases the
    result of [Sign] is what the callee returned. *)
Theorem Sign_dispatch (f : Authority) (cr : x509_CertificateRequest)
    (opts : stepProvisioner_Options) (signOpts : list SignOption) (w : World) :
  let a := Some f in
  (isOCF a signOpts = true
   <-> Sign a cr opts signOpts w = call (Authority_OCFSign a cr opts signOpts) w)
  /\ (isOCF a signOpts = false
      <-> Sign a cr opts signOpts w = call (stepAuth_Sign (stepAuth f) cr opts signOpts) w).
Proof.
  cbv zeta. unfold Sign, OCFSign.
  destruct (isOCF (Some f) signOpts); [|rewrite method_run];
    (split; split; intros H; try reflexivity; try discriminate; exfalso).
  - apply (f_equal snd) in H. rewrite !call_run in H. discriminate H.
  - apply (f_equal snd) in H. rewrite !call_run in H. discriminate H.
Qed.

(** C10. The path [Sign] takes is a function of the sign options alone: on a
    façade it is the alternate path if some sign option is the marker and the
    standard path otherwise, in every world.  So the calls [Sign] makes are
    the same from any two worlds, and two calls of [Sign] in a row, the second
    in the world the first one left, make the same call twice. *)
Theorem Sign_path_stateless (f : Authority) (cr : x509_CertificateRequest)
    (opts : stepProvisioner_Options) (signOpts : list SignOption) (w1 w2 : World) :
  let a := Some f in
  issuancePath (calls (Sign a cr opts signOpts w1))
  = Some (if existsb isOCFMarker signOpts then AlternatePath else StandardPath)
  /\ calls (Sign a cr opts signOpts w1) = calls (Sign a cr opts signOpts w2)
  /\ calls (bind (Sign a cr opts signOpts) (fun _ => Sign a cr opts signOpts) w1)
     = calls (Sign a cr opts signOpts w1) ++ calls (Sign a cr opts signOpts w1).
Proof.
  cbv zeta. unfold bind, Sign, OCFSign, isOCF.
  destruct (existsb isOCFMarker signOpts); cbv beta iota.
  - rewrite !call_run. repeat split.
  - rewrite !method_run, !call_run. cbn [fst snd].
    rewrite method_run, call_run. repeat split.
Qed.

(** ** Delegation *)

(** Every method but [Sign] and [SignSSH] is one call of the engine's method
    of that name, on the stored engine and the method's own arguments; what
    the engine returns is what the method returns. *)
Lemma delegation_unchanged (f : Authority) (w : World) :
  let a := Some f in
  let e := stepAuth f in
  GetDatabase a w = call (stepAuth_GetDatabase e) w
  /\ Shutdown a w = call (stepAuth_Shutdown e) w
  /\ (forall ctx ott, Authorize a ctx ott w = call (stepAuth_Authorize e ctx ott) w)
  /\ (forall ott, AuthorizeSign a ott w = call (stepAuth_AuthorizeSign e ott) w)
  /\ GetTLSOptions a w = call (stepAuth_GetTLSOptions e) w
  /\ (forall shasum, Root a shasum w = call (stepAuth_Root e shasum) w)
  /\ (forall peer, Renew a peer w = call (stepAuth_Renew e peer) w)
  /\ (forall c, LoadProvisionerByCertificate a c w
                = call (stepAuth_LoadProvisionerByCertificate e c) w)
  /\ (forall ID, LoadProvisionerByID a ID w = call (stepAuth_LoadProvisionerByID e ID) w)
  /\ (forall cursor limit, GetProvisioners a cursor limit w
                           = call (stepAuth_GetProvisioners e cursor limit) w)
  /\ (forall opts, Revoke a opts w = call (stepAuth_Revoke e opts) w)
  /\ (forall kid, GetEncryptedKey a kid w = call (stepAuth_GetEncryptedKey e kid) w)
  /\ GetRoots a w = call (stepAuth_GetRoots e) w
  /\ GetFederation a w = call (stepAuth_GetFederation e) w
  /\ GetTLSCertificate a w = call (stepAuth_GetTLSCertificate e) w
  /\ GetRootCertificates a w = call (stepAuth_GetRootCertificates e) w
  /\ (forall key subject, SignSSHAddUser a key subject w
                          = call (stepAuth_SignSSHAddUser e key subject) w).
Proof.
  cbv zeta.
  unfold GetDatabase, Shutdown, Authorize, AuthorizeSign, GetTLSOptions, Root, Renew,
    LoadProvisionerByCertificate, LoadProvisionerByID, GetProvisioners, Revoke,
    GetEncryptedKey, GetRoots, GetFederation, GetTLSCertificate, GetRootCertificates,
    SignSSHAddUser.
  repeat split; intros; rewrite method_run; reflexivity.
Qed.

Lemma slice_is_not_its_own_element (signOpts : list SignOption) :
  [SignOptionSlice signOpts] <> signOpts.
Proof.
  intros H. apply (f_equal (fun l => list_sum (map size l))) in H.
  cbn in H. lia.
Qed.

(** C5, where the code departs from it.  [SignSSH] calls the engine's
    [SignSSH] with the key and the options unchanged, but with one sign
    option, the caller's slice, in place of the caller's sign options; for no
    input is this the call that forwards the sign options. *)
Theorem SignSSH_repacks_sign_options (f : Authority) (key : ssh_PublicKey)
    (opts : stepProvisioner_SSHOptions) (signOpts : list SignOption) (w : World) :
  SignSSH (Some f) key opts signOpts w
  = call (stepAuth_SignSSH (stepAuth f) key opts [SignOptionSlice signOpts]) w
  /\ calls (SignSSH (Some f) key opts signOpts w)
     <> [stepAuth_SignSSH (stepAuth f) key opts signOpts].
Proof.
  unfold SignSSH. rewrite method_run. split; [reflexivity|].
  rewrite call_run. unfold calls. cbn [snd]. intros [= H].
  exact (slice_is_not_its_own_element H).
Qed.

End FacadeProperties.

(** * Further properties of the code *)

Section FurtherProperties.

Context {I : Imports} {E : Environment}.

Ltac run_New :=
  unfold New; rewrite ?classify_partitions in *; cbv beta iota;
  unfold bind, deref, call; cbn [fst snd] in *.

(** ** Nil receivers *)

(** Every method that reads [a.stepAuth] first panics on a nil receiver:
    nothing is called and the world is as before. *)
Theorem methods_panic_on_nil_receiver (w : World) :
  GetDatabase None w = (Panicked, w, [])
  /\ Shutdown None w = (Panicked, w, [])
  /\ (forall ctx ott, Authorize None ctx ott w = (Panicked, w, []))
  /\ (forall ott, AuthorizeSign None ott w = (Panicked, w, []))
  /\ GetTLSOptions None w = (Panicked, w, [])
  /\ (forall shasum, Root None shasum w = (Panicked, w, []))
  /\ (forall peer, Renew None peer w = (Panicked, w, []))
  /\ (forall c, LoadProvisionerByCertificate None c w = (Panicked, w, []))
  /\ (forall ID, LoadProvisionerByID None ID w = (Panicked, w, []))
  /\ (forall cursor limit, GetProvisioners None cursor limit w = (Panicked, w, []))
  /\ (forall opts, Revoke None opts w = (Panicked, w, []))
  /\ (forall kid, GetEncryptedKey None kid w = (Panicked, w, []))
  /\ GetRoots None w = (Panicked, w, [])
  /\ GetFederation None w = (Panicked, w, [])
  /\ GetTLSCertificate None w = (Panicked, w, [])
  /\ (forall key opts signOpts, SignSSH None key opts signOpts w = (Panicked, w, []))
  /\ GetRootCertificates None w = (Panicked, w, [])
  /\ (forall key subject, SignSSHAddUser None key subject w = (Panicked, w, [])).
Proof. repeat split. Qed.

(** ** The loop of New *)

(** The loop only appends: run on a concatenation it continues, on the second
    list, from what it collected on the first; and started from any two
    slices it returns them extended by what it collects from empty ones. *)
Theorem classify_appends (l1 l2 : list Option)
    (stepOpts : list stepAuthority_Option) (wrapOpts : list WrapperOption) :
  classify (l1 ++ l2) stepOpts wrapOpts
  = classify l2 (fst (classify l1 stepOpts wrapOpts)) (snd (classify l1 stepOpts wrapOpts))
  /\ classify (l1 ++ l2) stepOpts wrapOpts
     = (stepOpts ++ fst (classify l1 [] []) ++ fst (classify l2 [] []),
        wrapOpts ++ snd (classify l1 [] []) ++ snd (classify l2 [] [])).
Proof.
  split.
  - revert stepOpts wrapOpts.
    induction l1 as [|[v|v|v] rest IH]; intros stepOpts wrapOpts; cbn; auto.
  - rewrite !classify_acc, engineOptions_app, facadeOptions_app. reflexivity.
Qed.

(** Every option goes to at most one slice and none is invented: the sizes of
    the two slices and the number of options of another type add up to the
    number of options. *)
Theorem classify_counts (opts : list Option) :
  length (fst (classify opts [] [])) + length (snd (classify opts [] []))
  + length (filter isOtherType opts)
  = length opts.
Proof.
  rewrite classify_partitions. cbn [fst snd].
  induction opts as [|[v|v|v] rest IH]; cbn; lia.
Qed.

Lemma engineOptions_boxed (stepOpts : list stepAuthority_Option) :
  engineOptions (map OfStepOption stepOpts) = stepOpts.
Proof.
  induction stepOpts as [|v rest IH]; cbn; congruence.
Qed.

(** [New] on a mixed option list runs as [New] on its engine options alone:
    façade options and options of any other type, wherever they stand, change
    neither the result, nor the world, nor the calls. *)
Theorem New_runs_on_engine_options (config : ptr Config) (opts : list Option) (w : World) :
  New config opts w = New config (map OfStepOption (fst (classify opts [] []))) w.
Proof.
  apply New_reads_engine_options.
  rewrite classify_partitions. cbn [fst]. symmetry. apply engineOptions_boxed.
Qed.

(** ** What New calls *)

(** [New] builds the engine exactly once, loads the identity at most once and
    calls nothing else.  In particular it never shuts the engine down: when
    the identity cannot be loaded, the engine just built is dropped as it
    is. *)
Theorem New_only_constructs (c : Config) (opts : list Option) (w : World) :
  let log := calls (New (Some c) opts w) in
  length (filter isEngineConstructor log) = 1
  /\ length (filter isLoadIdentity log) <= 1
  /\ forallb (fun call => isEngineConstructor call || isLoadIdentity call) log = true.
Proof.
  cbv zeta. run_New.
  destruct (respond _ w) as [[sa [e|]] w1]; [cbn; auto|].
  destruct (0 <? String.length (Password c))%nat;
    match goal with
    | |- context [respond ?l w1] => destruct (respond l w1) as [[ident [e|]] w2]
    end; cbn; auto.
Qed.

(** ** New, then a method *)

(** When [New] returns a façade, it holds the caller's configuration pointer
    and the engine the constructor returned; shutting it down next calls the
    engine's [Shutdown] on that engine, in the world [New] left, and returns
    its answer. *)
Theorem New_then_Shutdown (c : Config) (opts : list Option) (w : World)
    (a : Authority) (err : error)
    (Hnew : outcome (New (Some c) opts w) = Returned (Some a, err)) :
  config a = Some c
  /\ stepAuth a
     = fst (fst (respond (stepAuthority_New (Config_ c) (fst (classify opts [] []))) w))
  /\ bind (New (Some c) opts) (fun r => Shutdown (fst r)) w
     = (let w' := world_after (New (Some c) opts w) in
        (Returned (fst (respond (stepAuth_Shutdown (stepAuth a)) w')),
         snd (respond (stepAuth_Shutdown (stepAuth a)) w'),
         calls (New (Some c) opts w) ++ [stepAuth_Shutdown (stepAuth a)])).
Proof.
  revert Hnew. cbv zeta. unfold outcome, world_after, calls, Shutdown. run_New.
  destruct (respond _ w) as [[sa [e|]] w1]; [discriminate|].
  destruct (0 <? String.length (Password c))%nat;
    match goal with
    | |- context [respond ?l w1] => destruct (respond l w1) as [[ident [e|]] w2]
    end; cbn [fst snd]; try discriminate;
    intros [= <- <-]; unfold ret; cbn;
    destruct (respond (stepAuth_Shutdown sa) w2) as [r w3]; repeat split.
Qed.

(** When [New] returns a nil façade, calling a method on it without looking
    at the error panics: after the calls [New] made, nothing more is
    called. *)
Theorem failed_New_then_Shutdown (c : Config) (opts : list Option) (w : World)
    (err : error)
    (Hnew : outcome (New (Some c) opts w) = Returned (None, err)) :
  bind (New (Some c) opts) (fun r => Shutdown (fst r)) w
  = (Panicked, world_after (New (Some c) opts w), calls (New (Some c) opts w)).
Proof.
  revert Hnew. unfold outcome, world_after, calls, Shutdown. run_New.
  destruct (respond _ w) as [[sa [e|]] w1]; [reflexivity|].
  destruct (0 <? String.length (Password c))%nat;
    match goal with
    | |- context [respond ?l w1] => destruct (respond l w1) as [[ident [e|]] w2]
    end; cbn [fst snd]; try discriminate; reflexivity.
Qed.

(** ** Methods *)

(** The methods read one field of the façade, [stepAuth]: on two façades
    with the same engine, whatever their configuration and identity, each of
    them runs the same. *)
Theorem methods_read_only_stepAuth (f1 f2 : Authority) (w : World)
    (Hengine : stepAuth f1 = stepAuth f2) :
  GetDatabase (Some f1) w = GetDatabase (Some f2) w
  /\ Shutdown (Some f1) w = Shutdown (Some f2) w
  /\ (forall ctx ott, Authorize (Some f1) ctx ott w = Authorize (Some f2) ctx ott w)
  /\ (forall ott, AuthorizeSign (Some f1) ott w = AuthorizeSign (Some f2) ott w)
  /\ GetTLSOptions (Some f1) w = GetTLSOptions (Some f2) w
  /\ (forall shasum, Root (Some f1) shasum w = Root (Some f2) shasum w)
  /\ (forall peer, Renew (Some f1) peer w = Renew (Some f2) peer w)
  /\ (forall c, LoadProvisionerByCertificate (Some f1) c w
                = LoadProvisionerByCertificate (Some f2) c w)
  /\ (forall ID, LoadProvisionerByID (Some f1) ID w = LoadProvisionerByID (Some f2) ID w)
  /\ (forall cursor limit, GetProvisioners (Some f1) cursor limit w
                           = GetProvisioners (Some f2) cursor limit w)
  /\ (forall opts, Revoke (Some f1) opts w = Revoke (Some f2) opts w)
  /\ (forall kid, GetEncryptedKey (Some f1) kid w = GetEncryptedKey (Some f2) kid w)
  /\ GetRoots (Some f1) w = GetRoots (Some f2) w
  /\ GetFederation (Some f1) w = GetFederation (Some f2) w
  /\ GetTLSCertificate (Some f1) w = GetTLSCertificate (Some f2) w
  /\ (forall key opts signOpts, SignSSH (Some f1) key opts signOpts w
                                = SignSSH (Some f2) key opts signOpts w)
  /\ GetRootCertificates (Some f1) w = GetRootCertificates (Some f2) w
  /\ (forall key subject, SignSSHAddUser (Some f1) key subject w
                          = SignSSHAddUser (Some f2) key subject w).
Proof.
  unfold GetDatabase, Shutdown, Authorize, AuthorizeSign, GetTLSOptions, Root, Renew,
    LoadProvisionerByCertificate, LoadProvisionerByID, GetProvisioners, Revoke,
    GetEncryptedKey, GetRoots, GetFederation, GetTLSCertificate, SignSSH,
    GetRootCertificates, SignSSHAddUser.
  repeat split; intros; rewrite !method_run, Hengine; reflexivity.
Qed.

(** [Shutdown] has no guard of its own: called twice, it calls the engine's
    [Shutdown] twice, whatever the first call returned, and the result is
    the engine's answer to the second call. *)
Theorem Shutdown_twice (f : Authority) (w : World) :
  bind (Shutdown (Some f)) (fun _ => Shutdown (Some f)) w
  = (let c := stepAuth_Shutdown (stepAuth f) in
     let w1 := snd (respond c w) in
     (Returned (fst (respond c w1)), snd (respond c w1), [c; c])).
Proof.
  cbv zeta. unfold bind at 1. unfold Shutdown.
  rewrite !method_run, call_run. cbn [fst snd]. rewrite method_run, call_run.
  reflexivity.
Qed.

(** ** Loading a configuration, then New *)

(** [New] on what [LoadConfiguration] returned: if the loader succeeded, the
    next call is the engine's constructor, on the base configuration the
    loader parsed and the engine options; if the loader failed, [New] is
    given a nil configuration and panics, and nothing but the loader was
    called. *)
Theorem LoadConfiguration_then_New (filename : string) (opts : list Option)
    (w w1 : World) (base : stepAuthority_Config) (err : error)
    (Hloader : respond (stepAuthority_LoadConfiguration filename) w = ((base, err), w1)) :
  let run := bind (LoadConfiguration filename) (fun r => New (fst r) opts) w in
  (err = None ->
     firstn 2 (calls run)
     = [stepAuthority_LoadConfiguration filename;
        stepAuthority_New base (fst (classify opts [] []))])
  /\ (err <> None -> run = (Panicked, w1, [stepAuthority_LoadConfiguration filename])).
Proof.
  cbv zeta. unfold calls, LoadConfiguration. run_New. rewrite Hloader.
  destruct err as [e|]; cbn.
  - split; [discriminate | reflexivity].
  - split; [intros _ | congruence].
    destruct (respond _ w1) as [[sa [e|]] w2]; [reflexivity|].
    match goal with
    | |- context [respond ?l w2] => destruct (respond l w2) as [[ident [e|]] w3]
    end; reflexivity.
Qed.

End FurtherProperties.

(** * Runs in the concrete environment *)

(** Options of all three kinds: the engine gets [3; 5], the façade option is
    not applied (the configuration is still there), the stray option is
    dropped. *)
Example New_plain_run :
  Toy.New (Some Toy.plainConfig)
    [Toy.engineOption 3; Toy.facadeOption Toy.dropConfig; Toy.strayOption 4; Toy.engineOption 5] 0
  = (Returned (Some (@Build_Authority Toy.imports (Some Toy.plainConfig) 103 12), None), 2,
     [@stepAuthority_New Toy.imports 1 [3; 5];
      @x509util_LoadIdentityFromDisk Toy.imports "ca.crt" "ca.key" []]).
Proof. reflexivity. Qed.

(** An encrypted key without a password: the load fails and so does [New];
    the engine built before is dropped. *)
Example New_missing_password_run :
  Toy.New (Some (@Build_Config Toy.imports 1 "ca.crt" "enc.key" "")) [] 0
  = (Returned (None, Some "identity: key is encrypted"), 2,
     [@stepAuthority_New Toy.imports 1 [];
      @x509util_LoadIdentityFromDisk Toy.imports "ca.crt" "enc.key" []]).
Proof. reflexivity. Qed.

Lemma New_engine_failure_witness :
  Toy.answer (@stepAuthority_New Toy.imports 0 [3]) 0
  = ((101, Some "engine: invalid configuration"), 1)
  /\ Toy.New (Some Toy.refusedConfig) [Toy.engineOption 3] 0
     = (Returned (None, Some "engine: invalid configuration"), 1,
        [@stepAuthority_New Toy.imports 0 [3]])
  /\ existsb (@isLoadIdentity Toy.imports)
       (calls (Toy.New (Some Toy.refusedConfig) [Toy.engineOption 3] 0)) = false.
Proof.
  split; [reflexivity|].
  apply (@New_engine_failure Toy.imports Toy.environment
           Toy.refusedConfig [Toy.engineOption 3] 0 1 101 "engine: invalid configuration").
  reflexivity.
Defined.

Lemma New_loads_identity_witness :
  Toy.answer (@stepAuthority_New Toy.imports 1 []) 0 = ((101, None), 1)
  /\ calls (Toy.New (Some Toy.sealedConfig) [] 0)
     = [@stepAuthority_New Toy.imports 1 [];
        @x509util_LoadIdentityFromDisk Toy.imports "ca.crt" "enc.key"
          [list_byte_of_string "s3cret"]]
  /\ outcome (Toy.New (Some Toy.sealedConfig) [] 0)
     = Returned (Some (@Build_Authority Toy.imports (Some Toy.sealedConfig) 101 13), None).
Proof.
  split; [reflexivity|].
  destruct (@New_loads_identity Toy.imports Toy.environment Toy.sealedConfig [] 0 1 101 eq_refl)
    as (pemOpts & Hpassword & _ & Hcalls & _ & _ & Hloaded & _).
  rewrite (Hpassword ltac:(discriminate)) in Hcalls, Hloaded.
  split; [exact Hcalls | exact (Hloaded 13 eq_refl)].
Defined.

Lemma New_ignores_wrapper_options_witness :
  filter (fun o => negb (isWrapperOption o))
    [Toy.facadeOption Toy.dropConfig; Toy.engineOption 3]
  = filter (fun o => negb (isWrapperOption o))
      [Toy.engineOption 3; Toy.facadeOption Toy.swapIdentity; Toy.facadeOption Toy.dropConfig]
  /\ forall w,
       Toy.New (Some Toy.plainConfig) [Toy.facadeOption Toy.dropConfig; Toy.engineOption 3] w
       = Toy.New (Some Toy.plainConfig)
           [Toy.engineOption 3; Toy.facadeOption Toy.swapIdentity; Toy.facadeOption Toy.dropConfig] w.
Proof.
  split; [reflexivity|].
  apply (@New_ignores_wrapper_options Toy.imports Toy.environment (Some Toy.plainConfig)
           [Toy.facadeOption Toy.dropConfig; Toy.engineOption 3]
           [Toy.engineOption 3; Toy.facadeOption Toy.swapIdentity; Toy.facadeOption Toy.dropConfig]).
  reflexivity.
Defined.

Lemma LoadConfiguration_delegates_witness :
  Toy.answer (@stepAuthority_LoadConfiguration Toy.imports "ca.json") 0 = ((7, None), 1)
  /\ calls (Toy.LoadConfiguration "ca.json" 0)
     = [@stepAuthority_LoadConfiguration Toy.imports "ca.json"]
  /\ exists cfg, outcome (Toy.LoadConfiguration "ca.json" 0) = Returned (Some cfg, None)
                 /\ Config_ cfg = 7.
Proof.
  split; [reflexivity|].
  destruct (@LoadConfiguration_delegates Toy.imports Toy.environment "ca.json" 0 1 7 None eq_refl)
    as (Hcalls & _ & Hok & _).
  split; [exact Hcalls | exact (Hok eq_refl)].
Defined.

(** The marker (sign option [7]) sends [Sign] to the OCF entry point; without
    it the engine signs. *)
Example Sign_marker_run :
  Toy.Sign (Some Toy.facade) 1 2 [Toy.signOption 8; Toy.signOption 7] 0
  = (Returned (1001, 1000, None), 1,
     [@Authority_OCFSign Toy.imports (Some Toy.facade) 1 2 [Toy.signOption 8; Toy.signOption 7]]).
Proof. reflexivity. Qed.

Example Sign_standard_run :
  Toy.Sign (Some Toy.facade) 1 2 [Toy.signOption 8] 0
  = (Returned (1, 101, None), 1,
     [@stepAuth_Sign Toy.imports 101 1 2 [Toy.signOption 8]]).
Proof. reflexivity. Qed.

(** [SignSSH] with no sign option at all: the engine is handed one sign
    option, the empty slice, and this engine, which like the wrapped one
    rejects a sign option of a type it does not know, fails. *)
Example SignSSH_no_option_run :
  Toy.SignSSH (Some Toy.facade) 1 2 [] 0
  = (Returned (1, Some "signSSH: invalid extra option type"), 1,
     [@stepAuth_SignSSH Toy.imports 101 1 2 [SignOptionSlice []]]).
Proof. reflexivity. Qed.

Lemma New_then_Shutdown_witness :
  outcome (Toy.New (Some Toy.plainConfig) [Toy.engineOption 3] 0)
  = Returned (Some (@Build_Authority Toy.imports (Some Toy.plainConfig) 102 12), None)
  /\ bind (Toy.New (Some Toy.plainConfig) [Toy.engineOption 3])
       (fun r => Toy.Shutdown (fst r)) 0
     = (Returned (Some "engine: already used"), 3,
        [@stepAuthority_New Toy.imports 1 [3];
         @x509util_LoadIdentityFromDisk Toy.imports "ca.crt" "ca.key" [];
         @stepAuth_Shutdown Toy.imports 102]).
Proof.
  split; [reflexivity|].
  destruct (@New_then_Shutdown Toy.imports Toy.environment Toy.plainConfig
              [Toy.engineOption 3] 0 _ _ eq_refl) as (_ & _ & Hrun).
  exact Hrun.
Defined.

Lemma failed_New_then_Shutdown_witness :
  outcome (Toy.New (Some Toy.refusedConfig) [] 0)
  = Returned (None, Some "engine: invalid configuration")
  /\ bind (Toy.New (Some Toy.refusedConfig) []) (fun r => Toy.Shutdown (fst r)) 0
     = (Panicked, 1, [@stepAuthority_New Toy.imports 0 []]).
Proof.
  split; [reflexivity|].
  exact (@failed_New_then_Shutdown Toy.imports Toy.environment Toy.refusedConfig [] 0
           _ eq_refl).
Defined.

Lemma methods_read_only_stepAuth_witness :
  stepAuth Toy.facade = stepAuth Toy.otherFacade
  /\ Toy.Shutdown (Some Toy.facade) 0 = Toy.Shutdown (Some Toy.otherFacade) 0
  /\ Toy.SignSSH (Some Toy.facade) 1 2 [Toy.signOption 8] 0
     = Toy.SignSSH (Some Toy.otherFacade) 1 2 [Toy.signOption 8] 0.
Proof.
  split; [reflexivity|].
  pose proof (@methods_read_only_stepAuth Toy.imports Toy.environment
                Toy.facade Toy.otherFacade 0 eq_refl) as Hsame.
  split; [exact (proj1 (proj2 Hsame))|].
  apply Hsame.
Defined.

Lemma LoadConfiguration_then_New_witness :
  Toy.answer (@stepAuthority_LoadConfiguration Toy.imports "ca.json") 0 = ((7, None), 1)
  /\ firstn 2 (calls (bind (Toy.LoadConfiguration "ca.json")
                        (fun r => Toy.New (fst r) [Toy.engineOption 3]) 0))
     = [@stepAuthority_LoadConfiguration Toy.imports "ca.json";
        @stepAuthority_New Toy.imports 7 [3]].
Proof.
  split; [reflexivity|].
  destruct (@LoadConfiguration_then_New Toy.imports Toy.environment "ca.json"
              [Toy.engineOption 3] 0 1 7 None eq_refl) as (Hok & _).
  exact (Hok eq_refl).
Defined.
